(** * A shallow embedding of the tool layer of [ki.py]

    [ki.py] defines seven tools ([sh], [read_file], [write_file],
    [read_excel], [excel_groupby], [to_csv_from_excel], [py]).  Each tool is
    a Python function whose body is wrapped in
    [try: ... except Exception as e: return f"error:{e}"].

    The model follows the code:
    - a Python [str] is its list of code points ([list Z]); a [bytes] value
      is its list of byte values ([list Z]);
    - raising is explicit: a computation returns [POk v] or [PRaise e], and
      an exception carries its class (with the [Exception]/[BaseException]
      split of Python's hierarchy) and its [str(e)];
    - a call into a library or the operating system ([subprocess.run],
      [open], [pd.read_excel], [exec]) is represented by its observable
      outcome, which the tool receives as an argument. *)

From Stdlib Require Import ZArith List String Ascii Bool Lia.
From stdpp Require Import base list gmap strings sorting.
Import ListNotations.
Open Scope Z_scope.
Set Warnings "-register-all".

(** ** Python text *)

Abbreviation pystr := (list Z).

(** An ASCII literal as a Python [str]. *)
Fixpoint lit (s : string) : list Z :=
  match s with
  | EmptyString => []
  | String a t => Z.of_nat (nat_of_ascii a) :: lit t
  end.

Definition CR : Z := 13.
Definition LF : Z := 10.

(** Python slicing [s[:m]] for an integer [m] (negative [m] counts from
    the end). *)
Definition py_slice_to {A} (s : list A) (m : Z) : list A :=
  if 0 <=? m then firstn (Z.to_nat m) s
  else firstn (Z.to_nat (Z.of_nat (length s) + m)) s.

(** [str.replace("\r\n", "\n")]: non-overlapping, left to right. *)
Fixpoint replace_crlf (s : list Z) : list Z :=
  match s with
  | [] => []
  | c :: t =>
      match t with
      | d :: t' => if (c =? CR) && (d =? LF) then LF :: replace_crlf t'
                   else c :: replace_crlf t
      | [] => [c]
      end
  end.

(** [str.replace("\r", "\n")]. *)
Definition replace_cr (s : list Z) : list Z :=
  map (fun c => if c =? CR then LF else c) s.

(** Universal newlines, as [subprocess] applies them in text mode
    ([data.replace("\r\n", "\n").replace("\r", "\n")]) and as a text file
    opened with [newline=None] translates on reading. *)
Definition univ_nl (s : list Z) : list Z := replace_cr (replace_crlf s).

(** Newline translation of a text file written with [newline=None]:
    every ["\n"] becomes [os.linesep] (["\n"] on POSIX, ["\r\n"] on
    Windows). *)
Definition write_nl (linesep : list Z) (s : list Z) : list Z :=
  flat_map (fun c => if c =? LF then linesep else [c]) s.

(** ** The UTF-8 codec (strict error handler) *)

Definition in_range (lo hi b : Z) : bool := (lo <=? b) && (b <=? hi).
Definition is_cont (b : Z) : bool := in_range 0x80 0xBF b.

(** Allowed second byte of a three-byte sequence (no overlong forms, no
    surrogates) and of a four-byte sequence (no overlong forms, nothing
    above U+10FFFF). *)
Definition second3_ok (b0 b1 : Z) : bool :=
  if b0 =? 0xE0 then in_range 0xA0 0xBF b1
  else if b0 =? 0xED then in_range 0x80 0x9F b1
  else is_cont b1.
Definition second4_ok (b0 b1 : Z) : bool :=
  if b0 =? 0xF0 then in_range 0x90 0xBF b1
  else if b0 =? 0xF4 then in_range 0x80 0x8F b1
  else is_cont b1.

Fixpoint utf8_decode (bs : list Z) : option (list Z) :=
  match bs with
  | [] => Some []
  | b0 :: r0 =>
      if in_range 0 0x7F b0 then cons b0 <$> utf8_decode r0
      else if in_range 0xC2 0xDF b0 then
        match r0 with
        | b1 :: r1 =>
            if is_cont b1
            then cons ((b0 - 0xC0) * 64 + (b1 - 0x80)) <$> utf8_decode r1
            else None
        | [] => None
        end
      else if in_range 0xE0 0xEF b0 then
        match r0 with
        | b1 :: b2 :: r2 =>
            if second3_ok b0 b1 && is_cont b2
            then cons ((b0 - 0xE0) * 4096 + (b1 - 0x80) * 64 + (b2 - 0x80))
                   <$> utf8_decode r2
            else None
        | _ => None
        end
      else if in_range 0xF0 0xF4 b0 then
        match r0 with
        | b1 :: b2 :: b3 :: r3 =>
            if second4_ok b0 b1 && is_cont b2 && is_cont b3
            then cons ((b0 - 0xF0) * 262144 + (b1 - 0x80) * 4096
                       + (b2 - 0x80) * 64 + (b3 - 0x80))
                   <$> utf8_decode r3
            else None
        | _ => None
        end
      else None
  end.

Definition utf8_encode_char (c : Z) : option (list Z) :=
  if c <? 0 then None
  else if c <? 0x80 then Some [c]
  else if c <? 0x800 then Some [0xC0 + c / 64; 0x80 + c mod 64]
  else if in_range 0xD800 0xDFFF c then None
  else if c <? 0x10000 then
    Some [0xE0 + c / 4096; 0x80 + (c / 64) mod 64; 0x80 + c mod 64]
  else if c <=? 0x10FFFF then
    Some [0xF0 + c / 262144; 0x80 + (c / 4096) mod 64;
          0x80 + (c / 64) mod 64; 0x80 + c mod 64]
  else None.

Fixpoint utf8_encode (s : list Z) : option (list Z) :=
  match s with
  | [] => Some []
  | c :: t =>
      match utf8_encode_char c, utf8_encode t with
      | Some b, Some r => Some (b ++ r)
      | _, _ => None
      end
  end.

(** ** Exceptions and the [except Exception] guard *)

Inductive exc_class :=
  | TimeoutExpired | OSError | FileNotFoundError | PermissionError
  | UnicodeDecodeError | UnicodeEncodeError
  | KeyError | ValueError | TypeError | AttributeError
  | ZeroDivisionError | NameError
  | SystemExit | KeyboardInterrupt | GeneratorExit.

(** Whether the class derives from [Exception]; [SystemExit],
    [KeyboardInterrupt] and [GeneratorExit] derive from [BaseException]
    only. *)
Definition is_Exception (c : exc_class) : bool :=
  match c with
  | SystemExit | KeyboardInterrupt | GeneratorExit => false
  | _ => true
  end.

(** An exception object: its class and what [str(e)] does.  For the
    exceptions of Python, pandas and the operating system [str(e)] gives a
    text; an exception class of a [py] snippet can define a [__str__] that
    raises (or returns a non-[str], which raises [TypeError]). *)
Inductive exc :=
  | mkexc (cls : exc_class) (str : exc_str)
with exc_str :=
  | StrOk (s : pystr)
  | StrRaise (e : exc).

Definition exc_cls (e : exc) : exc_class := match e with mkexc c _ => c end.
Definition exc_str_of (e : exc) : exc_str := match e with mkexc _ r => r end.

Inductive pyres (A : Type) :=
  | POk (a : A)
  | PRaise (e : exc).
Arguments POk {A} a.
Arguments PRaise {A} e.

Definition pbind {A B} (m : pyres A) (k : A -> pyres B) : pyres B :=
  match m with
  | POk a => k a
  | PRaise e => PRaise e
  end.
Global Instance pyres_bind : MBind pyres := fun A B k m => pbind m k.
Global Instance pyres_ret : MRet pyres := fun A a => POk a.

Definition raise {A} (c : exc_class) (msg : pystr) : pyres A :=
  PRaise (mkexc c (StrOk msg)).

(** [try: body except Exception as e: return f"error:{e}"]; formatting
    [e] calls [str(e)], and an exception it raises leaves the [except]
    block. *)
Definition catch_exception (body : pyres pystr) : pyres pystr :=
  match body with
  | POk s => POk s
  | PRaise e =>
      if is_Exception (exc_cls e) then
        match exc_str_of e with
        | StrOk m => POk (lit "error:" ++ m)
        | StrRaise e' => PRaise e'
        end
      else PRaise e
  end.

Definition error_marker : pystr := lit "error:".

(** ** [sh] *)

(** Why [Popen] fails to launch the shell: an [OSError] from the
    operating system (its [str]), or the [ValueError] of a command holding
    a NUL character. *)
Inductive launch_error :=
  | LaunchOSError (msg : pystr)
  | LaunchNulByte.

(** What [subprocess.run(cmd, shell=True, capture_output=True, text=True,
    timeout=60)] observes: the shell finished (exit code and the raw bytes
    of both pipes), the 60 s timeout expired (the shell is killed; the
    bytes read so far), or [Popen] raised while launching. *)
Inductive run_outcome :=
  | Completed (rc : Z) (out err : list Z)
  | TimedOut (out err : list Z)
  | LaunchFailed (l : launch_error).

(** Text mode: each pipe is decoded with the locale encoding (UTF-8,
    strict) and then gets universal newlines.  The message of the
    [UnicodeDecodeError] is abbreviated: the real one also names the
    offending byte, its position and the reason. *)
Definition decode_text (bs : list Z) : pyres pystr :=
  match utf8_decode bs with
  | Some t => POk (univ_nl t)
  | None => raise UnicodeDecodeError (lit "'utf-8' codec can't decode bytes")
  end.

(** [subprocess.run] returning [(r.stdout, r.stderr)]; on expiry it raises
    [TimeoutExpired], whose [str] is
    ["Command '%s' timed out after %s seconds" % (cmd, timeout)]. *)
Definition subprocess_run (cmd : pystr) (o : run_outcome) : pyres (pystr * pystr) :=
  match o with
  | Completed _ out err =>
      so ← decode_text out;
      se ← decode_text err;
      POk (so, se)
  | TimedOut _ _ =>
      raise TimeoutExpired
        (lit "Command '" ++ cmd ++ lit "' timed out after 60 seconds")
  | LaunchFailed (LaunchOSError msg) => raise OSError msg
  | LaunchFailed LaunchNulByte => raise ValueError (lit "embedded null byte")
  end.

(** [return (r.stdout or "") + (r.stderr or "")]; with [capture_output]
    both are [str], so [or ""] leaves them unchanged. *)
Definition sh (cmd : pystr) (o : run_outcome) : pyres pystr :=
  catch_exception (
    r ← subprocess_run cmd o;
    POk (fst r ++ snd r)).

(** ** [read_file] and [write_file] *)

(** The file system: the bytes of each file, and whether
    [os.makedirs(os.path.dirname(path) or ".", exist_ok=True)] followed by
    [open(path, "w")] succeeds for a path.  Directories are not recorded:
    the ones [os.makedirs] creates, even when [open] then fails, are not
    part of the model. *)
Record fsys := mkfs {
  fs_files : gmap (list Z) (list Z);
  fs_can_write : list Z -> bool;
}.

Definition truncated_marker : pystr := lit "...[truncated]".

(** [open(path, "r", encoding="utf-8")] then [f.read()].  The error
    texts are those of the common case: Python writes the path with
    [repr], and a path under a regular file or naming a directory gives
    another [errno]; only their [error:] prefix is relied on below. *)
Definition open_read (fs : fsys) (path : pystr) : pyres pystr :=
  match fs_files fs !! path with
  | None => raise FileNotFoundError
              (lit "[Errno 2] No such file or directory: '" ++ path ++ lit "'")
  | Some bs =>
      match utf8_decode bs with
      | Some t => POk (univ_nl t)
      | None => raise UnicodeDecodeError (lit "'utf-8' codec can't decode bytes")
      end
  end.

Definition read_file (fs : fsys) (path : pystr) (max_chars : Z) : pyres pystr :=
  catch_exception (
    data ← open_read fs path;
    POk (py_slice_to data max_chars ++
         (if Z.of_nat (length data) >? max_chars then truncated_marker else []))).

(** [open(path, "w", encoding="utf-8")] truncates the file; [f.write]
    then translates newlines and encodes, raising on a surrogate. *)
Definition write_file (linesep : pystr) (fs : fsys) (path content : pystr)
    : fsys * pyres pystr :=
  if negb (fs_can_write fs path) then
    (fs, catch_exception (raise PermissionError
           (lit "[Errno 13] Permission denied: '" ++ path ++ lit "'")))
  else
    let fs1 := mkfs (<[path := []]> (fs_files fs)) (fs_can_write fs) in
    match utf8_encode (write_nl linesep content) with
    | None =>
        (fs1, catch_exception (raise UnicodeEncodeError
                (lit "'utf-8' codec can't encode character: surrogates not allowed")))
    | Some bs =>
        (mkfs (<[path := bs]> (fs_files fs)) (fs_can_write fs),
         catch_exception (POk (lit "saved:" ++ path)))
    end.

(** ** [py] *)

(** What [exec(code, ns, ns)] does under [contextlib.redirect_stdout(buf)]:
    it finishes, [buf] then holding [printed] (and [closed] when the
    snippet closed [sys.stdout], that is [buf]), or it raises [e] after
    printing [printed]. *)
Inductive exec_outcome :=
  | ExecDone (printed : pystr) (closed : bool)
  | ExecRaised (printed : pystr) (e : exc).

(** [buf.getvalue()] is read only after [exec] returned, and raises
    [ValueError] on a closed buffer; a raise leaves the [with] block and
    the [try] body before it. *)
Definition py (code : pystr) (o : exec_outcome) : pyres pystr :=
  catch_exception (
    out ← (match o with
           | ExecDone printed closed =>
               if closed then raise ValueError (lit "I/O operation on closed file.")
               else POk printed
           | ExecRaised _ e => PRaise e
           end);
    POk (match out with [] => lit "ok" | _ => out end)).

(** ** Spreadsheets as pandas loads them *)

(** A cell of a loaded sheet: an integer, a string, a date and time
    (kept as its [str], ["YYYY-MM-DD HH:MM:SS"]), or a missing value (an
    empty Excel cell, [NaN] or [NaT] in pandas).  Column labels are cells
    too: a header cell holding a date gives a [datetime] label. *)
Inductive cell :=
  | CInt (z : Z)
  | CStr (s : pystr)
  | CDate (iso : pystr)
  | CNaN.

Global Instance cell_eq_dec : EqDecision cell.
Proof. solve_decision. Defined.

(** A [DataFrame]: column labels in sheet order and the data rows. *)
Record frame := mkframe {
  fr_cols : list cell;
  fr_rows : list (list cell);
}.

(** The shape every frame returned by [pd.read_excel] has: every row has
    one cell per column, and labels are unique (pandas renames a repeated
    header to ["a.1"], ...). *)
Definition wf_frame (df : frame) : Prop :=
  NoDup (fr_cols df) /\ Forall (fun r => length r = length (fr_cols df)) (fr_rows df).

(** A workbook: its sheets in file order. *)
Abbreviation workbook := (list (pystr * frame)).

(** The value [pd.read_excel] returns: a [DataFrame] when [sheet_name]
    names one sheet, and a [dict] of every sheet when [sheet_name=None]. *)
Inductive loaded :=
  | LFrame (df : frame)
  | LDict (sheets : workbook).

Fixpoint find_sheet (name : pystr) (w : workbook) : option frame :=
  match w with
  | [] => None
  | (n, df) :: t => if decide (n = name) then Some df else find_sheet name t
  end.

(** [pd.read_excel(path, sheet_name=sheet, engine="openpyxl")]; [None]
    for [wb] is a path that does not hold a readable workbook. *)
Definition pd_read_excel (path : pystr) (wb : option workbook) (sheet : option pystr)
    : pyres loaded :=
  match wb with
  | None => raise FileNotFoundError
              (lit "[Errno 2] No such file or directory: '" ++ path ++ lit "'")
  | Some w =>
      match sheet with
      | None => POk (LDict w)
      | Some name =>
          match find_sheet name w with
          | Some df => POk (LFrame df)
          | None => raise ValueError (lit "Worksheet named '" ++ name ++ lit "' not found")
          end
      end
  end.

(** [len(df)]: rows of a [DataFrame], keys of a [dict]. *)
Definition py_len (d : loaded) : Z :=
  match d with
  | LFrame df => Z.of_nat (length (fr_rows df))
  | LDict w => Z.of_nat (length w)
  end.

(** Attribute access [df.attr] on the loaded value: a [dict] has none of
    the [DataFrame] attributes the tools use. *)
Definition frame_attr (attr : pystr) (d : loaded) : pyres frame :=
  match d with
  | LFrame df => POk df
  | LDict _ => raise AttributeError
                 (lit "'dict' object has no attribute '" ++ attr ++ lit "'")
  end.

(** ** Rendering *)

Fixpoint digits_aux (fuel : nat) (n : Z) : list Z :=
  match fuel with
  | O => []
  | S f => if n <? 10 then [48 + n] else digits_aux f (n / 10) ++ [48 + n mod 10]
  end.

(** [str(z)] for an integer. *)
Definition z_str (z : Z) : pystr :=
  if z <? 0 then 45 :: digits_aux (S (Z.to_nat (Z.log2 (- z)))) (- z)
  else digits_aux (S (Z.to_nat (Z.log2 z))) z.

(** [str(v)] of a cell value. *)
Definition cell_str (c : cell) : pystr :=
  match c with
  | CInt z => z_str z
  | CStr s => s
  | CDate iso => iso
  | CNaN => lit "nan"
  end.

Fixpoint join (sep : pystr) (l : list pystr) : pystr :=
  match l with
  | [] => []
  | [x] => x
  | x :: t => x ++ sep ++ join sep t
  end.

(** [DataFrame.to_markdown(index=False)]: tabulate's pipe table, with
    one line per row; tabulate's padding of columns to a common width is
    not reproduced. *)
Definition to_markdown (df : frame) : pystr :=
  let line cs := lit "| " ++ join (lit " | ") (map cell_str cs) ++ lit " |" in
  join [LF] (line (fr_cols df)
             :: (lit "|" ++ join (lit "|") (map (fun _ => lit "---") (fr_cols df)) ++ lit "|")
             :: map line (fr_rows df)).

(** ** [json.dumps(..., ensure_ascii=False)] *)

Inductive json :=
  | JInt (z : Z)
  | JStr (s : pystr)
  | JList (l : list json)
  | JObj (kvs : list (pystr * json)).

Definition hex_digit (n : Z) : Z := if n <? 10 then 48 + n else 87 + n.

(** A character inside a JSON string: the quote, the backslash and the
    control characters are escaped; with [ensure_ascii=False] every other
    character is written as it is. *)
Definition json_escape_char (c : Z) : pystr :=
  if c =? 34 then [92; 34]
  else if c =? 92 then [92; 92]
  else if c =? 10 then [92; 110]
  else if c =? 13 then [92; 114]
  else if c =? 9 then [92; 116]
  else if c =? 8 then [92; 98]
  else if c =? 12 then [92; 102]
  else if c <? 32 then lit "\u00" ++ [hex_digit (c / 16); hex_digit (c mod 16)]
  else [c].

Definition json_str (s : pystr) : pystr := [34] ++ flat_map json_escape_char s ++ [34].

Fixpoint json_dumps (j : json) : pystr :=
  match j with
  | JInt z => z_str z
  | JStr s => json_str s
  | JList l => lit "[" ++ join (lit ", ") (map json_dumps l) ++ lit "]"
  | JObj kvs =>
      lit "{" ++ join (lit ", ")
        (map (fun kv => json_str (fst kv) ++ lit ": " ++ json_dumps (snd kv)) kvs)
      ++ lit "}"
  end.

(** A Python value as [json.dumps] receives it: dict keys are column
    labels (or [str]s). *)
Inductive pyval :=
  | PInt (z : Z)
  | PStr (s : pystr)
  | PList (l : list pyval)
  | PDict (kvs : list (cell * pyval)).

(** The key [json.dumps] writes for a dict key: a [str] as it is, an
    [int] as its digits, a float [NaN] as ["NaN"]; a key of any other type
    (a [datetime] label) raises [TypeError]. *)
Definition json_key (c : cell) : pyres pystr :=
  match c with
  | CInt z => POk (z_str z)
  | CStr s => POk s
  | CNaN => POk (lit "NaN")
  | CDate _ => raise TypeError (lit "keys must be str, int, float, bool or None, not datetime")
  end.

(** The conversion [json.dumps] performs while encoding, in the order it
    visits the value; the text is then [json_dumps] of the result. *)
Fixpoint to_json (v : pyval) : pyres json :=
  match v with
  | PInt z => POk (JInt z)
  | PStr s => POk (JStr s)
  | PList l => js ← mapM to_json l; POk (JList js)
  | PDict kvs =>
      r ← mapM (fun '(k, x) => ks ← json_key k; j ← to_json x; POk (ks, j)) kvs;
      POk (JObj r)
  end.


(** ** [read_excel] *)

(** The column of label [c]: [df[c]]. *)
Fixpoint index_of (c : cell) (l : list cell) : option nat :=
  match l with
  | [] => None
  | x :: t => if decide (x = c) then Some O else S <$> index_of c t
  end.

Definition column (df : frame) (c : cell) : list cell :=
  match index_of c (fr_cols df) with
  | Some i => map (fun r => nth i r CNaN) (fr_rows df)
  | None => []
  end.

Definition is_na (c : cell) : bool := match c with CNaN => true | _ => false end.
Definition is_int (c : cell) : bool := match c with CInt _ => true | _ => false end.
Definition is_date (c : cell) : bool := match c with CDate _ => true | _ => false end.

(** [str(df[c].dtype)]: integers only give [int64], integers with missing
    values (or only missing values) give [float64], dates (with missing
    values) give [datetime64[ns]], any other mix gives [object]; an empty
    column is [object]. *)
Definition dtype_str (col : list cell) : pystr :=
  match col with
  | [] => lit "object"
  | _ =>
      if forallb is_int col then lit "int64"
      else if forallb (fun c => is_int c || is_na c) col then lit "float64"
      else if forallb (fun c => is_date c || is_na c) col then lit "datetime64[ns]"
      else lit "object"
  end.

(** [int(df[c].isna().sum())] *)
Definition na_count (col : list cell) : Z := Z.of_nat (length (List.filter is_na col)).

(** [df.head(n)]: the rows [df[:n]]. *)
Definition df_head (n : Z) (df : frame) : frame :=
  mkframe (fr_cols df) (py_slice_to (fr_rows df) n).

(** The dict [info] that [read_excel] builds, in its key order; the
    [dtypes] and [na_counts] dicts are keyed by the column labels. *)
Definition excel_info (rows : Z) (df : frame) (head : Z) : pyval :=
  PDict [(CStr (lit "rows"), PInt rows);
         (CStr (lit "columns"), PList (map (fun c => PStr (cell_str c)) (fr_cols df)));
         (CStr (lit "dtypes"),
          PDict (map (fun c => (c, PStr (dtype_str (column df c)))) (fr_cols df)));
         (CStr (lit "na_counts"),
          PDict (map (fun c => (c, PInt (na_count (column df c)))) (fr_cols df)));
         (CStr (lit "preview_markdown"), PStr (to_markdown (df_head head df)))].

Definition read_excel (path : pystr) (wb : option workbook) (sheet : option pystr)
    (head : Z) : pyres pystr :=
  catch_exception (
    d ← pd_read_excel path wb sheet;
    let rows := py_len d in
    df ← frame_attr (lit "columns") d;
    j ← to_json (excel_info rows df head);
    POk (json_dumps j)).

(** ** [excel_groupby] *)

(** The order pandas sorts group keys in ([sort=True], [safe_sort]):
    numbers, then dates, then strings; numbers by value, dates in time
    order (the order of their fixed-width text), strings by code points;
    key tuples lexicographically.  Integers and dates are never compared:
    a key column holding both makes the sort raise (see [groupby_agg]). *)
Fixpoint str_leb (a b : pystr) : bool :=
  match a, b with
  | [], _ => true
  | _ :: _, [] => false
  | x :: a', y :: b' => if x =? y then str_leb a' b' else x <? y
  end.

Definition cell_leb (a b : cell) : bool :=
  match a, b with
  | CInt x, CInt y => x <=? y
  | CInt _, _ => true
  | CDate _, CInt _ => false
  | CDate d, CDate e => str_leb d e
  | CDate _, _ => true
  | CStr _, (CInt _ | CDate _) => false
  | CStr s, CStr t => str_leb s t
  | CStr _, CNaN => true
  | CNaN, CNaN => true
  | CNaN, _ => false
  end.

Fixpoint key_leb (a b : list cell) : bool :=
  match a, b with
  | [], _ => true
  | _ :: _, [] => false
  | x :: a', y :: b' => if decide (x = y) then key_leb a' b' else cell_leb x y
  end.

Definition key_le (a b : list cell) : Prop := key_leb a b = true.
Global Instance key_le_dec : RelDecision key_le :=
  fun a b => decide (key_leb a b = true).

(** [df[b]] for a key column named [b]. *)
Definition key_column (df : frame) (b : pystr) : pyres nat :=
  match index_of (CStr b) (fr_cols df) with
  | Some i => POk i
  | None => raise KeyError (lit "'" ++ b ++ lit "'")
  end.

(** The column [DataFrame.reset_index] fails to insert: the levels [by]
    are inserted from the last one to the first in front of the column
    [value]. *)
Fixpoint reset_conflict (present : list pystr) (levels_rev : list pystr) : option pystr :=
  match levels_rev with
  | [] => None
  | b :: t => if decide (b ∈ present) then Some b else reset_conflict (b :: present) t
  end.

Section Groupby.

(** The named reductions [SeriesGroupBy.agg] accepts, each mapping the
    values of one group to one cell (or raising). *)
Variable aggs : pystr -> option (list cell -> pyres cell).

(** The rows that enter a group: [(key tuple, value)] of each row, with
    the rows whose key holds a missing value dropped ([dropna=True]). *)
Definition keyed_rows (df : frame) (bidx : list nat) (vidx : nat) : list (list cell * cell) :=
  List.filter (fun kv => negb (existsb is_na kv.1))
    (map (fun r => (map (fun i => nth i r CNaN) bidx, nth vidx r CNaN)) (fr_rows df)).

(** Whether a key column holds both integers and dates: sorting its
    distinct values then compares an [int] with a [datetime]. *)
Definition mixed_int_date (col : list cell) : bool :=
  existsb is_int col && existsb is_date col.

(** The distinct key tuples, sorted. *)
Definition group_keys (keyed : list (list cell * cell)) : list (list cell) :=
  merge_sort key_le (remove_dups (map fst keyed)).

Definition group_values (keyed : list (list cell * cell)) (k : list cell) : list cell :=
  map snd (List.filter (fun kv => bool_decide (kv.1 = k)) keyed).

(** [df.groupby(by)[value].agg(agg).reset_index()] *)
Definition groupby_agg (df : frame) (by' : list pystr) (value agg : pystr) : pyres frame :=
  match by' with
  | [] => raise ValueError (lit "No group keys passed!")
  | _ =>
      bidx ← mapM (key_column df) by';
      vidx ← (match index_of (CStr value) (fr_cols df) with
              | Some i => POk i
              | None => raise KeyError (lit "'Column not found: " ++ value ++ lit "'")
              end);
      f ← (match aggs agg with
           | Some f => POk f
           | None => raise AttributeError
                       (lit "'SeriesGroupBy' object has no attribute '" ++ agg ++ lit "'")
           end);
      _ ← (if existsb (fun i => mixed_int_date (map (fun r => nth i r CNaN) (fr_rows df))) bidx
           then raise TypeError
                  (lit "'<' not supported between instances of 'datetime.datetime' and 'int'")
           else POk tt);
      let keyed := keyed_rows df bidx vidx in
      let groups := group_keys keyed in
      vals ← mapM (fun k => f (group_values keyed k)) groups;
      match reset_conflict [value] (rev by') with
      | Some b => raise ValueError (lit "cannot insert " ++ b ++ lit ", already exists")
      | None => POk (mkframe (map CStr (by' ++ [value]))
                             (zip_with (fun k v => k ++ [v]) groups vals))
      end
  end.

Definition excel_groupby (path : pystr) (wb : option workbook) (sheet : option pystr)
    (by' : list pystr) (value agg : pystr) : pyres pystr :=
  catch_exception (
    d ← pd_read_excel path wb sheet;
    df ← frame_attr (lit "groupby") d;
    g ← groupby_agg df by' value agg;
    POk (to_markdown g)).

End Groupby.

(** Part of pandas' table of named reductions. *)
Definition non_na (vs : list cell) : list cell := List.filter (fun c => negb (is_na c)) vs.

Definition agg_sum (vs : list cell) : pyres cell :=
  let xs := non_na vs in
  if forallb is_int xs then
    POk (CInt (fold_right (fun c acc => match c with CInt z => z + acc | _ => acc end) 0 xs))
  else if forallb is_date xs then
    raise TypeError (lit "datetime64 type does not support sum operations")
  else if forallb (fun c => match c with CStr _ => true | _ => false end) xs then
    POk (CStr (flat_map cell_str xs))
  else raise TypeError (lit "unsupported operand type(s) for +: 'int' and 'str'").

Definition pandas_aggs (name : pystr) : option (list cell -> pyres cell) :=
  if decide (name = lit "sum") then Some agg_sum
  else if decide (name = lit "count") then
    Some (fun vs => POk (CInt (Z.of_nat (length (non_na vs)))))
  else if decide (name = lit "size") then
    Some (fun vs => POk (CInt (Z.of_nat (length vs))))
  else if decide (name = lit "first") then
    Some (fun vs => POk (match non_na vs with c :: _ => c | [] => CNaN end))
  else if decide (name = lit "last") then
    Some (fun vs => POk (match rev (non_na vs) with c :: _ => c | [] => CNaN end))
  else None.

(** ** [to_csv_from_excel] *)

(** A CSV field as [csv.writer] quotes it (minimal quoting); a missing
    value is the empty field. *)
Definition csv_field (c : cell) : pystr :=
  let s := match c with CNaN => [] | _ => cell_str c end in
  if existsb (fun ch => (ch =? 44) || (ch =? 34) || (ch =? LF) || (ch =? CR)) s
  then [34] ++ flat_map (fun ch => if ch =? 34 then [34; 34] else [ch]) s ++ [34]
  else s.

(** Whether a date is at midnight: its time part is ["00:00:00"]. *)
Definition midnight (c : cell) : bool :=
  match c with
  | CDate iso => bool_decide (skipn 11 iso = lit "00:00:00")
  | _ => true
  end.

(** The value [to_csv] writes for a data cell of column [col], by the
    column's dtype: an integer of a [float64] column (integers with
    missing values) is a float and is written ["1.0"] (an integer read
    from a sheet has at most 15 digits, so [repr] keeps this form); in a
    [datetime64[ns]] column whose dates are all at midnight a date is
    written as its date part ["YYYY-MM-DD"]; any other cell as its
    [str]. *)
Definition to_csv_cell (col : list cell) (c : cell) : cell :=
  match c with
  | CInt z =>
      if bool_decide (dtype_str col = lit "float64") then CStr (z_str z ++ lit ".0") else c
  | CDate iso =>
      if bool_decide (dtype_str col = lit "datetime64[ns]") && forallb midnight col
      then CStr (firstn 10 iso) else c
  | _ => c
  end.

(** The cells of column [i]. *)
Definition csv_column (df : frame) (i : nat) : list cell :=
  map (fun r => nth i r CNaN) (fr_rows df).

(** The fields of the line of row [r]: one per column. *)
Definition csv_row (df : frame) (r : list cell) : list cell :=
  map (fun i => to_csv_cell (csv_column df i) (nth i r CNaN)) (seq 0 (length (fr_cols df))).

(** [df.to_csv(out_csv, index=False)]: the header line (the [str] of each
    label), then one line per row, each ended by [os.linesep]. *)
Definition csv_text (linesep : pystr) (df : frame) : pystr :=
  flat_map (fun r => join (lit ",") (map csv_field r) ++ linesep)
    (fr_cols df :: map (csv_row df) (fr_rows df)).

Definition to_csv_from_excel (linesep : pystr) (fs : fsys) (path : pystr)
    (wb : option workbook) (sheet : option pystr) (out_csv : pystr)
    : fsys * pyres pystr :=
  match d ← pd_read_excel path wb sheet; frame_attr (lit "to_csv") d with
  | PRaise e => (fs, catch_exception (PRaise e))
  | POk df =>
      if negb (fs_can_write fs out_csv) then
        (fs, catch_exception (raise OSError
               (lit "Cannot save file into a non-existent directory")))
      else
        match utf8_encode (csv_text linesep df) with
        | None =>
            (mkfs (<[out_csv := []]> (fs_files fs)) (fs_can_write fs),
             catch_exception (raise UnicodeEncodeError
               (lit "'utf-8' codec can't encode character: surrogates not allowed")))
        | Some bs =>
            (mkfs (<[out_csv := bs]> (fs_files fs)) (fs_can_write fs),
             catch_exception (POk (lit "saved:" ++ out_csv)))
        end
  end.

(** ** Reading a JSON object back *)



(** The key tuple of row [r] for the key columns [by]. *)
Definition row_key (df : frame) (by' : list pystr) (r : list cell) : list cell :=
  map (fun b => match index_of (CStr b) (fr_cols df) with
                | Some i => nth i r CNaN
                | None => CNaN
                end) by'.

(** The value cell of row [r] in the column named [value]. *)
Definition cell_at (df : frame) (value : pystr) (r : list cell) : cell :=
  match index_of (CStr value) (fr_cols df) with
  | Some i => nth i r CNaN
  | None => CNaN
  end.

(** A code point reserved for UTF-16 surrogates, which UTF-8 cannot
    encode. *)
Definition is_surrogate (c : Z) : Prop := 0xD800 <= c <= 0xDFFF.

(** The number of line feeds in a text. *)
Definition count_lf (s : pystr) : nat := length (List.filter (fun c => c =? LF) s).

(** ** Sample inputs *)

Definition fs_empty : fsys := mkfs ∅ (fun _ => true).

Definition fs_demo : fsys :=
  mkfs (<[lit "notes.txt" := lit "hello"]> ∅) (fun _ => true).

(** A sheet with a key column [k] (one key cell left empty) and an integer
    column [v]. *)
Definition sales : frame :=
  mkframe [CStr (lit "k"); CStr (lit "v")]
    [[CNaN; CInt 1]; [CStr (lit "x"); CInt 2]; [CStr (lit "x"); CInt 5];
     [CStr (lit "a"); CInt (-3)]].

Definition sales_book : workbook := [(lit "Sheet1", sales)].



(** ** Facts about the embedding *)






















Lemma sh_completed (cmd : pystr) (rc : Z) (out err so se : list Z) :
  utf8_decode out = Some so -> utf8_decode err = Some se ->
  sh cmd (Completed rc out err) = POk (univ_nl so ++ univ_nl se).
Proof.
  intros Ho He. unfold sh, subprocess_run, decode_text. rewrite Ho, He. reflexivity.
Qed.


Lemma replace_crlf_no_cr (s : list Z) : CR ∉ s -> replace_crlf s = s.
Proof.
  induction s as [|c t IH]; intros Hn; [reflexivity|].
  rewrite elem_of_cons in Hn.
  destruct t as [|d t']; [reflexivity|].
  simpl. destruct (Z.eqb_spec c CR) as [->|Hc]; [tauto|].
  simpl. f_equal. apply IH. tauto.
Qed.

Lemma replace_cr_no_cr (s : list Z) : CR ∉ s -> replace_cr s = s.
Proof.
  induction s as [|c t IH]; intros Hn; [reflexivity|].
  rewrite elem_of_cons in Hn. simpl.
  destruct (Z.eqb_spec c CR) as [->|Hc]; [tauto|].
  f_equal. apply IH. tauto.
Qed.

Lemma univ_nl_no_cr (s : list Z) : CR ∉ s -> univ_nl s = s.
Proof.
  intros Hn. unfold univ_nl. rewrite replace_crlf_no_cr by done.
  apply replace_cr_no_cr; done.
Qed.


(** *** C1: the timeout of [sh] *)



(** *** C3: [sheet=None] *)

(** C3.  With [sheet=None], [pd.read_excel] returns the dict of all
    sheets, so [read_excel], [excel_groupby] and [to_csv_from_excel] all
    fail on the first [DataFrame] attribute they use, for every workbook. *)
Theorem sheet_none_is_error
    (aggs : pystr -> option (list cell -> pyres cell))
    (path : pystr) (w : workbook) (head : Z) (by' : list pystr) (value agg : pystr)
    (linesep : pystr) (fs : fsys) (out_csv : pystr) :
  read_excel path (Some w) None head =
    POk (lit "error:'dict' object has no attribute 'columns'") /\
  excel_groupby aggs path (Some w) None by' value agg =
    POk (lit "error:'dict' object has no attribute 'groupby'") /\
  to_csv_from_excel linesep fs path (Some w) None out_csv =
    (fs, POk (lit "error:'dict' object has no attribute 'to_csv'")).
Proof. repeat split; reflexivity. Qed.

(** *** C9: exit status and decoding in [sh] *)

(** C9 (amended).  For a command that finishes within the timeout, the
    exit code never makes [sh] report an error: when both pipes decode as
    UTF-8 it returns the decoded standard output followed by the decoded
    standard error, each with universal newlines, and when one of them
    does not decode it returns an [error:] text. *)
Theorem sh_completed_output (cmd : pystr) (rc : Z) (out err : list Z) :
  (forall so se, utf8_decode out = Some so -> utf8_decode err = Some se ->
     sh cmd (Completed rc out err) = POk (univ_nl so ++ univ_nl se)) /\
  (utf8_decode out = None \/ utf8_decode err = None ->
     exists msg, sh cmd (Completed rc out err) = POk (error_marker ++ msg)).
Proof.
  split; [intros so se; apply sh_completed|].
  unfold sh, subprocess_run, decode_text. intros [H|H].
  - rewrite H. eexists. reflexivity.
  - rewrite H. destruct (utf8_decode out); eexists; reflexivity.
Qed.

Lemma sh_completed_output_witness :
  sh (lit "echo hi; echo oops >&2; exit 3") (Completed 3 (lit "hi" ++ [LF]) (lit "oops"))
    = POk (univ_nl (lit "hi" ++ [LF]) ++ univ_nl (lit "oops")) /\
  exists msg, sh (lit "echo hi; printf '\377' >&2") (Completed 0 (lit "hi" ++ [LF]) [255])
    = POk (error_marker ++ msg).
Proof.
  split.
  - apply (proj1 (sh_completed_output _ 3 (lit "hi" ++ [LF]) (lit "oops"))); reflexivity.
  - apply (proj2 (sh_completed_output _ 0 (lit "hi" ++ [LF]) [255])). right. reflexivity.
Defined.

(** C9 (counterexample).  [printf '\377'] exits with status 0 within the
    timeout, but its output byte 0xFF is not UTF-8: [sh] returns an
    [error:] text instead of the output. *)
Lemma sh_undecodable_output_is_error :
  exists msg, sh (lit "printf '\377'") (Completed 0 [255] []) = POk (error_marker ++ msg).
Proof. eexists. reflexivity. Qed.

(** *** C10: output printed by a failing snippet *)



(** *** C5: size of the results *)





(** *** C6: what escapes a tool *)




(** *** C4: [write_file] then [read_file] *)

Lemma in_range_true (lo hi b : Z) : lo <= b <= hi -> in_range lo hi b = true.
Proof. intros H. unfold in_range. apply andb_true_iff. split; apply Z.leb_le; lia. Qed.

Lemma in_range_false (lo hi b : Z) : b < lo \/ hi < b -> in_range lo hi b = false.
Proof.
  intros H. unfold in_range. apply andb_false_iff.
  destruct H; [left | right]; apply Z.leb_gt; lia.
Qed.

(** [lia] after turning divisions and remainders by constants into
    equations. *)
Ltac zlia := Z.div_mod_to_equations; lia.

(** Decide every range test and byte comparison of the decoder from the
    arithmetic facts at hand. *)
Ltac decide_ranges :=
  repeat (match goal with
          | |- context [in_range ?lo ?hi ?b] =>
              first [ rewrite (in_range_true lo hi b) by zlia
                    | rewrite (in_range_false lo hi b) by zlia ]
          | |- context [?a =? ?b] =>
              destruct (Z.eqb_spec a b); try (exfalso; zlia)
          end; cbn [andb negb]).

Lemma utf8_decode_char (c : Z) (b rest : list Z) :
  utf8_encode_char c = Some b -> utf8_decode (b ++ rest) = cons c <$> utf8_decode rest.
Proof.
  unfold utf8_encode_char.
  destruct (Z.ltb_spec c 0); [discriminate|].
  destruct (Z.ltb_spec c 0x80).
  { intros [= <-]. cbn [app utf8_decode]. decide_ranges. reflexivity. }
  destruct (Z.ltb_spec c 0x800).
  { intros [= <-]. cbn [app utf8_decode]. unfold is_cont. decide_ranges.
    do 2 f_equal. zlia. }
  destruct (in_range 0xD800 0xDFFF c) eqn:Hs; [discriminate|].
  assert (c < 0xD800 \/ 0xDFFF < c) as Hs'.
  { unfold in_range in Hs. apply andb_false_iff in Hs.
    destruct Hs as [Hs|Hs]; apply Z.leb_gt in Hs; lia. }
  destruct (Z.ltb_spec c 0x10000).
  { intros [= <-]. cbn [app utf8_decode]. unfold second3_ok, is_cont.
    decide_ranges; do 2 f_equal; zlia. }
  destruct (Z.leb_spec c 0x10FFFF); [|discriminate].
  intros [= <-]. cbn [app utf8_decode]. unfold second4_ok, is_cont.
  decide_ranges; do 2 f_equal; zlia.
Qed.

(** Decoding what the encoder produced gives the text back. *)
Lemma utf8_roundtrip (s b : list Z) : utf8_encode s = Some b -> utf8_decode b = Some s.
Proof.
  revert b. induction s as [|c t IH]; intros b; simpl.
  - intros [= <-]. reflexivity.
  - destruct (utf8_encode_char c) as [bc|] eqn:Hc; [|discriminate].
    destruct (utf8_encode t) as [bt|] eqn:Ht; [|discriminate].
    intros [= <-]. rewrite (utf8_decode_char c bc bt Hc), (IH bt eq_refl). reflexivity.
Qed.

Lemma replace_crlf_cons_ne (x : Z) (r : list Z) :
  x <> CR -> replace_crlf (x :: r) = x :: replace_crlf r.
Proof.
  intros Hx. destruct r as [|d r']; [reflexivity|]. simpl.
  destruct (Z.eqb_spec x CR); [contradiction | reflexivity].
Qed.

Lemma write_nl_lf (s : list Z) : write_nl [LF] s = s.
Proof.
  induction s as [|x t IH]; [reflexivity|]. simpl.
  destruct (Z.eqb_spec x LF) as [->|]; simpl; f_equal; exact IH.
Qed.

Lemma replace_crlf_write_nl_crlf (s : list Z) :
  CR ∉ s -> replace_crlf (write_nl [CR; LF] s) = s.
Proof.
  induction s as [|x t IH]; intros Hn; [reflexivity|].
  rewrite elem_of_cons in Hn. unfold write_nl. cbn [flat_map].
  fold (write_nl [CR; LF] t).
  destruct (Z.eqb_spec x LF) as [->|Hx]; cbn [app].
  - simpl. f_equal. apply IH. tauto.
  - rewrite replace_crlf_cons_ne by (intros ->; tauto).
    f_equal. apply IH. tauto.
Qed.

(** Reading back in universal-newline mode undoes the newline translation
    of writing, for a text without carriage returns. *)
Lemma univ_nl_write_nl (linesep s : list Z) :
  (linesep = [LF] \/ linesep = [CR; LF]) -> CR ∉ s -> univ_nl (write_nl linesep s) = s.
Proof.
  intros [-> | ->] Hn.
  - rewrite write_nl_lf. apply univ_nl_no_cr, Hn.
  - unfold univ_nl. rewrite replace_crlf_write_nl_crlf by done.
    apply replace_cr_no_cr, Hn.
Qed.

Lemma py_slice_to_all {A} (s : list A) (m : Z) :
  Z.of_nat (length s) <= m -> py_slice_to s m = s.
Proof.
  intros H. unfold py_slice_to. destruct (Z.leb_spec 0 m); [|lia].
  apply firstn_all2. lia.
Qed.

Lemma saved_not_error (path msg : pystr) :
  POk (lit "error:" ++ msg) <> POk (lit "saved:" ++ path).
Proof. intros H. apply (f_equal (fun r => match r with POk (x :: _) => x | _ => 0 end)) in H.
  cbv in H. discriminate H. Qed.

(** C4 (amended).  On POSIX or Windows line endings, if [write_file(p, c)]
    succeeds and [c] has no carriage return, [read_file(p, max_chars)]
    returns [c] when [len(c) <= max_chars] and [c[:max_chars]] followed by
    ["...[truncated]"] otherwise. *)
Theorem write_then_read (linesep : pystr) (fs fs' : fsys) (path content : pystr) (m : Z) :
  (linesep = [LF] \/ linesep = [CR; LF]) ->
  CR ∉ content ->
  write_file linesep fs path content = (fs', POk (lit "saved:" ++ path)) ->
  read_file fs' path m =
    POk (if Z.of_nat (length content) <=? m then content
         else py_slice_to content m ++ truncated_marker).
Proof.
  intros Hls Hcr. unfold write_file.
  destruct (fs_can_write fs path); simpl.
  2:{ intros H. apply (f_equal snd) in H. exfalso. eapply saved_not_error, H. }
  destruct (utf8_encode (write_nl linesep content)) as [bs|] eqn:He.
  2:{ intros H. apply (f_equal snd) in H. exfalso. eapply saved_not_error, H. }
  intros [= <-].
  unfold read_file, open_read. simpl. rewrite lookup_insert_eq.
  rewrite (utf8_roundtrip _ _ He), univ_nl_write_nl by done. simpl.
  destruct (Z.leb_spec (Z.of_nat (length content)) m).
  - destruct (Z.gtb_spec (Z.of_nat (length content)) m); [lia|].
    rewrite app_nil_r, py_slice_to_all by lia. reflexivity.
  - destruct (Z.gtb_spec (Z.of_nat (length content)) m); [|lia].
    reflexivity.
Qed.

Lemma write_then_read_witness :
  read_file (fst (write_file [LF] fs_empty (lit "out/notes.txt") (lit "hello" ++ [LF])))
    (lit "out/notes.txt") 3 = POk (lit "hel" ++ truncated_marker).
Proof.
  apply (write_then_read [LF] fs_empty _ (lit "out/notes.txt") (lit "hello" ++ [LF]) 3).
  - left. reflexivity.
  - rewrite list_elem_of_In. vm_compute. intuition discriminate.
  - reflexivity.
Defined.

(** C4 (counterexample).  [write_file(p, "\r")] succeeds, but reading the
    file back in universal-newline mode gives ["\n"], although
    [len("\r") <= 20000]. *)
Lemma write_read_cr_becomes_lf :
  snd (write_file [LF] fs_empty (lit "a.txt") [CR]) = POk (lit "saved:a.txt") /\
  read_file (fst (write_file [LF] fs_empty (lit "a.txt") [CR])) (lit "a.txt") 20000
    = POk [LF] /\
  POk [LF] <> POk [CR].
Proof. split; [reflexivity|]. split; [reflexivity | discriminate]. Qed.

(** *** C2 and C8: the summary of [read_excel] *)

Lemma read_excel_sheet (path : pystr) (w : workbook) (name : pystr) (df : frame) (head : Z) :
  find_sheet name w = Some df ->
  read_excel path (Some w) (Some name) head =
  catch_exception (j ← to_json (excel_info (Z.of_nat (length (fr_rows df))) df head);
                   POk (json_dumps j)).
Proof. intros Hf. unfold read_excel, pd_read_excel. rewrite Hf. reflexivity. Qed.









(** *** C7: the table [excel_groupby] renders *)

Lemma pyres_bind_ok {A B} (m : pyres A) (k : A -> pyres B) (b : B) :
  m ≫= k = POk b -> exists a, m = POk a /\ k a = POk b.
Proof. destruct m as [a|e]; unfold mbind, pyres_bind; simpl; [eauto | discriminate]. Qed.

Lemma mapM_pyres_Forall2 {A B} (f : A -> pyres B) (l : list A) (l' : list B) :
  mapM f l = POk l' -> Forall2 (fun x y => f x = POk y) l l'.
Proof.
  revert l'. induction l as [|x l IH]; intros l' H; simpl in H.
  - unfold mret, pyres_ret in H. injection H as <-. constructor.
  - apply pyres_bind_ok in H as [y [Hy H]].
    apply pyres_bind_ok in H as [k [Hk H]].
    unfold mret, pyres_ret in H. injection H as <-.
    constructor; [exact Hy | apply IH, Hk].
Qed.

Lemma key_columns_row_key (df : frame) (by' : list pystr) (bidx : list nat) :
  mapM (key_column df) by' = POk bidx ->
  forall r, map (fun i => nth i r CNaN) bidx = row_key df by' r.
Proof.
  intros H r. apply mapM_pyres_Forall2 in H.
  induction H as [|b i bs is Hi _ IH]; [reflexivity|].
  unfold key_column in Hi. unfold row_key. simpl.
  destruct (index_of (CStr b) (fr_cols df)) as [j|]; [|discriminate].
  injection Hi as ->. f_equal. exact IH.
Qed.

Lemma existsb_na_false (k : list cell) :
  existsb is_na k = false <-> Forall (fun c => c <> CNaN) k.
Proof.
  induction k as [|c k IH]; simpl.
  - split; auto.
  - rewrite orb_false_iff, IH, Forall_cons.
    destruct c; simpl; intuition congruence.
Qed.

Lemma keyed_rows_keys (df : frame) (bidx : list nat) (vidx : nat) (k : list cell) :
  k ∈ map fst (keyed_rows df bidx vidx) <->
  (exists r, r ∈ fr_rows df /\ k = map (fun i => nth i r CNaN) bidx) /\
  Forall (fun c => c <> CNaN) k.
Proof.
  unfold keyed_rows. rewrite list_elem_of_In, in_map_iff. split.
  - intros [kv [<- Hin]]. apply filter_In in Hin as [Hin Hna].
    apply in_map_iff in Hin as [r [<- Hr]]. simpl in *.
    split; [exists r; split; [apply list_elem_of_In, Hr | reflexivity]|].
    apply existsb_na_false. destruct (existsb _ _); [discriminate | reflexivity].
  - intros [[r [Hr ->]] Hna].
    exists (map (fun i => nth i r CNaN) bidx, nth vidx r CNaN). split; [reflexivity|].
    apply filter_In. split.
    + apply in_map_iff. exists r. split; [reflexivity | apply list_elem_of_In, Hr].
    + simpl. apply existsb_na_false in Hna. rewrite Hna. reflexivity.
Qed.

Lemma group_keys_spec (keyed : list (list cell * cell)) :
  NoDup (group_keys keyed) /\
  forall k, k ∈ group_keys keyed <-> k ∈ map fst keyed.
Proof.
  unfold group_keys. split.
  - rewrite merge_sort_Permutation. apply NoDup_remove_dups.
  - intros k. rewrite merge_sort_Permutation, elem_of_remove_dups. reflexivity.
Qed.

Lemma keys_of_rows {A} (n : nat) (ks : list (list A)) (vs : list A) :
  length vs = length ks -> Forall (fun k => length k = n) ks ->
  map (firstn n) (zip_with (fun k v => k ++ [v]) ks vs) = ks /\
  Forall (fun row => length row = S n) (zip_with (fun k v => k ++ [v]) ks vs).
Proof.
  revert vs. induction ks as [|k ks IH]; intros vs Hl Hk.
  - destruct vs; simpl; split; [reflexivity | constructor | reflexivity | constructor].
  - destruct vs as [|v vs]; [discriminate|]. simpl in Hl.
    inversion Hk as [|? ? Hkn Hks]; subst.
    destruct (IH vs ltac:(lia) Hks) as [IH1 IH2]. simpl. split.
    + rewrite firstn_app, firstn_all, Nat.sub_diag. simpl. rewrite app_nil_r.
      f_equal. exact IH1.
    + constructor; [rewrite length_app; simpl; lia | exact IH2].
Qed.




(** ** Further properties of the tools *)

(** *** [read_file] *)

(** A missing file and a file that is not UTF-8 both give an [error:]
    text. *)
Theorem read_file_errors (fs : fsys) (path : pystr) (m : Z) :
  (fs_files fs !! path = None ->
   exists msg, read_file fs path m = POk (lit "error:" ++ msg)) /\
  (forall bs, fs_files fs !! path = Some bs -> utf8_decode bs = None ->
   exists msg, read_file fs path m = POk (lit "error:" ++ msg)).
Proof.
  unfold read_file, open_read. split.
  - intros H. rewrite H. eexists. reflexivity.
  - intros bs H Hd. rewrite H, Hd. eexists. reflexivity.
Qed.

Lemma read_file_errors_witness :
  (exists msg, read_file fs_empty (lit "missing.txt") 10 = POk (lit "error:" ++ msg)) /\
  exists msg, read_file (mkfs (<[lit "bin" := [255]]> ∅) (fun _ => true)) (lit "bin") 10 =
    POk (lit "error:" ++ msg).
Proof.
  split.
  - apply (proj1 (read_file_errors fs_empty (lit "missing.txt") 10)). reflexivity.
  - apply (proj2 (read_file_errors (mkfs (<[lit "bin" := [255]]> ∅) (fun _ => true))
                    (lit "bin") 10) [255]); reflexivity.
Defined.

(** A negative [max_chars] counts from the end, as Python slicing does:
    the last [-max_chars] characters are cut and the truncation marker is
    always appended. *)
Theorem read_file_negative_max_chars (fs : fsys) (path : pystr) (m : Z) (data : pystr) :
  open_read fs path = POk data -> m < 0 ->
  read_file fs path m =
    POk (firstn (Z.to_nat (Z.of_nat (length data) + m)) data ++ truncated_marker).
Proof.
  intros Hr Hm. unfold read_file. rewrite Hr. simpl. unfold py_slice_to.
  destruct (Z.leb_spec 0 m); [lia|].
  destruct (Z.gtb_spec (Z.of_nat (length data)) m); [reflexivity | lia].
Qed.

Lemma read_file_negative_max_chars_witness :
  read_file fs_demo (lit "notes.txt") (-1) = POk (lit "hell" ++ truncated_marker).
Proof. apply (read_file_negative_max_chars fs_demo _ (-1) (lit "hello")); reflexivity. Defined.

(** *** [write_file] *)

(** When the content cannot be encoded (a lone surrogate), [open(path,
    "w")] has already truncated the file: the old content is lost, the file
    is empty and the result is an [error:] text. *)
Theorem write_file_encode_failure_truncates (linesep : pystr) (fs : fsys) (path content : pystr) :
  fs_can_write fs path = true ->
  utf8_encode (write_nl linesep content) = None ->
  fs_files (fst (write_file linesep fs path content)) !! path = Some [] /\
  exists msg, snd (write_file linesep fs path content) = POk (lit "error:" ++ msg).
Proof.
  intros Hw He. unfold write_file. rewrite Hw, He. simpl.
  split; [apply lookup_insert_eq | eexists; reflexivity].
Qed.

Lemma write_file_encode_failure_truncates_witness :
  fs_files (fst (write_file [LF] fs_demo (lit "notes.txt") [0xD800])) !! lit "notes.txt"
    = Some [] /\
  exists msg, snd (write_file [LF] fs_demo (lit "notes.txt") [0xD800]) =
    POk (lit "error:" ++ msg).
Proof. apply write_file_encode_failure_truncates; reflexivity. Defined.

(** The file left by two writes to one path does not depend on the first
    write. *)
Theorem write_file_last_wins (linesep : pystr) (fs : fsys) (path c1 c2 : pystr) :
  fs_files (fst (write_file linesep (fst (write_file linesep fs path c1)) path c2)) !! path =
  fs_files (fst (write_file linesep fs path c2)) !! path.
Proof.
  assert (Hw : fs_can_write (fst (write_file linesep fs path c1)) = fs_can_write fs).
  { unfold write_file. destruct (fs_can_write fs path); simpl; [|reflexivity].
    destruct (utf8_encode (write_nl linesep c1)); reflexivity. }
  unfold write_file at 1 3. rewrite Hw.
  destruct (fs_can_write fs path) eqn:Hp; simpl.
  - destruct (utf8_encode (write_nl linesep c2)); simpl; rewrite !lookup_insert_eq; reflexivity.
  - unfold write_file. rewrite Hp. reflexivity.
Qed.

Lemma utf8_encode_char_some (c : Z) :
  utf8_encode_char c <> None <-> 0 <= c <= 0x10FFFF /\ ~ is_surrogate c.
Proof.
  unfold utf8_encode_char, is_surrogate.
  destruct (Z.ltb_spec c 0); [split; [congruence | lia]|].
  destruct (Z.ltb_spec c 0x80); [split; [lia | discriminate]|].
  destruct (Z.ltb_spec c 0x800); [split; [lia | discriminate]|].
  destruct (in_range 0xD800 0xDFFF c) eqn:Hs.
  - unfold in_range in Hs. apply andb_true_iff in Hs as [Hs1 Hs2].
    apply Z.leb_le in Hs1, Hs2. split; [congruence | lia].
  - unfold in_range in Hs. apply andb_false_iff in Hs.
    assert (c < 0xD800 \/ 0xDFFF < c) by (destruct Hs as [Hs|Hs]; apply Z.leb_gt in Hs; lia).
    destruct (Z.ltb_spec c 0x10000); [split; [lia | discriminate]|].
    destruct (Z.leb_spec c 0x10FFFF); split; (discriminate || lia || congruence).
Qed.

Lemma utf8_encode_some (s : list Z) :
  utf8_encode s <> None <-> Forall (fun c => utf8_encode_char c <> None) s.
Proof.
  induction s as [|c t IH]; simpl.
  - split; [constructor | discriminate].
  - rewrite Forall_cons, <- IH.
    destruct (utf8_encode_char c), (utf8_encode t); split;
      (discriminate || intuition congruence).
Qed.

Lemma Forall_write_nl (P : Z -> Prop) (linesep s : list Z) :
  P LF -> Forall P linesep -> Forall P (write_nl linesep s) <-> Forall P s.
Proof.
  intros HLF Hls. induction s as [|c t IH]; [simpl; split; constructor|].
  unfold write_nl. cbn [flat_map]. fold (write_nl linesep t).
  rewrite Forall_app, Forall_cons, IH.
  destruct (Z.eqb_spec c LF) as [->|]; [tauto|].
  rewrite Forall_cons. split; [intros [[? _] ?] | intros [? ?]]; auto.
Qed.

Lemma replace_crlf_length (s : list Z) : (length (replace_crlf s) <= length s)%nat.
Proof.
  remember (length s) as n eqn:Hn. revert s Hn.
  induction n as [n IH] using lt_wf_ind. intros s ->.
  destruct s as [|c [|d t']]; [simpl; lia | simpl; lia|].
  simpl. destruct ((c =? CR) && (d =? LF)); simpl.
  - specialize (IH (length t') ltac:(simpl; lia) t' eq_refl). lia.
  - specialize (IH (length (d :: t')) ltac:(simpl; lia) (d :: t') eq_refl).
    simpl in *. lia.
Qed.

Lemma univ_nl_length (s : list Z) : (length (univ_nl s) <= length s)%nat.
Proof. unfold univ_nl, replace_cr. rewrite length_map. apply replace_crlf_length. Qed.

(** [write_file] on a path it may create succeeds exactly when every
    character of the content can be encoded as UTF-8, that is when the
    content has no surrogate code point; a line break never makes it
    fail. *)
Theorem write_file_saved_iff (linesep : pystr) (fs : fsys) (path content : pystr) :
  (linesep = [LF] \/ linesep = [CR; LF]) ->
  fs_can_write fs path = true ->
  snd (write_file linesep fs path content) = POk (lit "saved:" ++ path) <->
  Forall (fun c => 0 <= c <= 0x10FFFF /\ ~ is_surrogate c) content.
Proof.
  intros Hls Hw. unfold write_file. rewrite Hw. cbn [negb].
  assert (Hiff : utf8_encode (write_nl linesep content) <> None <->
                 Forall (fun c => 0 <= c <= 0x10FFFF /\ ~ is_surrogate c) content).
  { rewrite utf8_encode_some, Forall_write_nl.
    - split; intros Hf; (eapply Forall_impl; [exact Hf|]); intros c;
        apply utf8_encode_char_some.
    - discriminate.
    - destruct Hls as [-> | ->]; repeat constructor; discriminate. }
  rewrite <- Hiff.
  destruct (utf8_encode (write_nl linesep content)); cbn [snd].
  - split; [discriminate | reflexivity].
  - split; [|tauto]. intros H. exfalso. eapply saved_not_error, H.
Qed.

Lemma write_file_saved_iff_witness :
  Forall (fun c => 0 <= c <= 0x10FFFF /\ ~ is_surrogate c) (lit "a" ++ [LF; 0x20AC]).
Proof.
  apply (write_file_saved_iff [CR; LF] fs_empty (lit "x.txt") (lit "a" ++ [LF; 0x20AC]));
    [right; reflexivity | reflexivity | reflexivity].
Defined.

(** On POSIX, whatever [write_file] saved is read back by [read_file]
    (with [max_chars] at least its length) with universal newlines
    applied: each ["\r\n"] and each lone ["\r"] comes back as ["\n"], and
    nothing is truncated. *)
Theorem write_read_posix (fs fs' : fsys) (path content : pystr) (m : Z) :
  write_file [LF] fs path content = (fs', POk (lit "saved:" ++ path)) ->
  Z.of_nat (length content) <= m ->
  read_file fs' path m = POk (univ_nl content).
Proof.
  intros H Hm. unfold write_file in H.
  destruct (fs_can_write fs path); cbn [negb] in H.
  2:{ apply (f_equal snd) in H. exfalso. eapply saved_not_error, H. }
  destruct (utf8_encode (write_nl [LF] content)) as [bs|] eqn:He.
  2:{ apply (f_equal snd) in H. exfalso. eapply saved_not_error, H. }
  injection H as <-. rewrite write_nl_lf in He.
  pose proof (univ_nl_length content) as Hl.
  unfold read_file, open_read. simpl. rewrite lookup_insert_eq, (utf8_roundtrip _ _ He).
  simpl. rewrite py_slice_to_all by lia.
  destruct (Z.gtb_spec (Z.of_nat (length (univ_nl content))) m); [lia|].
  rewrite app_nil_r. reflexivity.
Qed.

Lemma write_read_posix_witness :
  read_file (fst (write_file [LF] fs_empty (lit "w.txt") [97; CR; LF; 98; CR]))
    (lit "w.txt") 100 = POk [97; LF; 98; LF].
Proof.
  apply (write_read_posix fs_empty _ (lit "w.txt") [97; CR; LF; 98; CR] 100);
    [reflexivity | simpl; lia].
Defined.

(** *** [py] *)

(** [py] never returns the empty string: a snippet that prints nothing
    gives ["ok"], a caught exception an [error:] text. *)
Theorem py_result_nonempty (code : pystr) (o : exec_outcome) (s : pystr) :
  py code o = POk s -> s <> [].
Proof.
  destruct o as [printed closed | printed e]; unfold py; simpl.
  - destruct closed; [intros [= <-]; discriminate|].
    destruct printed; intros [= <-]; discriminate.
  - destruct (is_Exception (exc_cls e)); [destruct (exc_str_of e)|];
      intros H; inversion H; discriminate.
Qed.

Lemma py_result_nonempty_witness : lit "ok" <> [].
Proof. apply (py_result_nonempty (lit "x = 1") (ExecDone [] false)). reflexivity. Defined.

(** *** [read_excel] *)

(** Any [head] at least the number of rows gives the same result: the
    preview is then the whole sheet. *)
Theorem read_excel_head_past_end (path : pystr) (w : workbook) (name : pystr) (df : frame)
    (h1 h2 : Z) :
  find_sheet name w = Some df ->
  Z.of_nat (length (fr_rows df)) <= h1 -> Z.of_nat (length (fr_rows df)) <= h2 ->
  read_excel path (Some w) (Some name) h1 = read_excel path (Some w) (Some name) h2.
Proof.
  intros Hf H1 H2. rewrite !(read_excel_sheet path w name df) by exact Hf.
  unfold excel_info, df_head. rewrite !py_slice_to_all by lia. reflexivity.
Qed.

Lemma read_excel_head_past_end_witness :
  read_excel (lit "s.xlsx") (Some sales_book) (Some (lit "Sheet1")) 4 =
  read_excel (lit "s.xlsx") (Some sales_book) (Some (lit "Sheet1")) 1000.
Proof. apply (read_excel_head_past_end _ _ _ sales); [reflexivity | simpl; lia | simpl; lia]. Defined.

(** A negative [head] previews all rows but the last [-head], as
    [df.head(-n)] does: the same result as [head = max 0 (rows + head)]. *)
Theorem read_excel_negative_head (path : pystr) (w : workbook) (name : pystr) (df : frame)
    (h : Z) :
  find_sheet name w = Some df -> h < 0 ->
  read_excel path (Some w) (Some name) h =
  read_excel path (Some w) (Some name) (Z.max 0 (Z.of_nat (length (fr_rows df)) + h)).
Proof.
  intros Hf Hh. rewrite !(read_excel_sheet path w name df) by exact Hf.
  unfold excel_info, df_head, py_slice_to.
  destruct (Z.leb_spec 0 h); [lia|].
  destruct (Z.leb_spec 0 (Z.max 0 (Z.of_nat (length (fr_rows df)) + h))); [|lia].
  assert (E : Z.to_nat (Z.max 0 (Z.of_nat (length (fr_rows df)) + h)) =
              Z.to_nat (Z.of_nat (length (fr_rows df)) + h)) by lia.
  rewrite E. reflexivity.
Qed.

Lemma read_excel_negative_head_witness :
  read_excel (lit "s.xlsx") (Some sales_book) (Some (lit "Sheet1")) (-1) =
  read_excel (lit "s.xlsx") (Some sales_book) (Some (lit "Sheet1")) 3.
Proof. apply (read_excel_negative_head _ _ _ sales); [reflexivity | lia]. Defined.

(** *** Loading failures, common to the three spreadsheet tools *)

(** A sheet name the workbook does not have gives the same [error:] text
    from all three tools, and [to_csv_from_excel] writes nothing. *)
Theorem unknown_sheet_error
    (aggs : pystr -> option (list cell -> pyres cell))
    (path : pystr) (w : workbook) (name : pystr) (head : Z) (by' : list pystr)
    (value agg : pystr) (linesep : pystr) (fs : fsys) (out_csv : pystr) :
  find_sheet name w = None ->
  read_excel path (Some w) (Some name) head =
    POk (lit "error:Worksheet named '" ++ name ++ lit "' not found") /\
  excel_groupby aggs path (Some w) (Some name) by' value agg =
    POk (lit "error:Worksheet named '" ++ name ++ lit "' not found") /\
  to_csv_from_excel linesep fs path (Some w) (Some name) out_csv =
    (fs, POk (lit "error:Worksheet named '" ++ name ++ lit "' not found")).
Proof.
  intros Hf. unfold read_excel, excel_groupby, to_csv_from_excel, pd_read_excel.
  rewrite Hf. repeat split; reflexivity.
Qed.

Lemma unknown_sheet_error_witness :
  to_csv_from_excel [LF] fs_demo (lit "s.xlsx") (Some sales_book) (Some (lit "Sheet2"))
    (lit "o.csv") = (fs_demo, POk (lit "error:Worksheet named 'Sheet2' not found")).
Proof.
  apply (unknown_sheet_error pandas_aggs (lit "s.xlsx") sales_book (lit "Sheet2") 5
           [lit "k"] (lit "v") (lit "sum") [LF] fs_demo (lit "o.csv")).
  reflexivity.
Defined.

(** A path that holds no readable workbook gives an [error:] text from
    all three tools, whatever the other arguments, and [to_csv_from_excel]
    writes nothing. *)
Theorem no_workbook_error
    (aggs : pystr -> option (list cell -> pyres cell))
    (path : pystr) (sheet : option pystr) (head : Z) (by' : list pystr)
    (value agg : pystr) (linesep : pystr) (fs : fsys) (out_csv : pystr) :
  (exists msg, read_excel path None sheet head = POk (lit "error:" ++ msg)) /\
  (exists msg, excel_groupby aggs path None sheet by' value agg = POk (lit "error:" ++ msg)) /\
  (exists msg, to_csv_from_excel linesep fs path None sheet out_csv =
                 (fs, POk (lit "error:" ++ msg))).
Proof. repeat split; eexists; reflexivity. Qed.

(** *** [excel_groupby] *)

Lemma reset_conflict_none (present levels : list pystr) :
  reset_conflict present levels = None ->
  NoDup levels /\ Forall (fun x => x ∉ present) levels.
Proof.
  revert present. induction levels as [|b t IH]; intros present; simpl.
  - intros _. split; constructor.
  - destruct (decide (b ∈ present)) as [Hb|Hb]; [discriminate|].
    intros H. destruct (IH (b :: present) H) as [Hnd Hf].
    split.
    + constructor; [|exact Hnd].
      intros Hin. rewrite Forall_forall in Hf. apply (Hf b); [exact Hin | left].
    + constructor; [exact Hb|].
      eapply Forall_impl; [exact Hf|]. intros x Hx Hx'. apply Hx. right. exact Hx'.
Qed.

(** A name repeated in [by + [value]] (a key column given twice, or the
    value column also used as a key) makes the grouping fail in
    [reset_index], whatever the sheet and the reduction: no table is ever
    returned. *)
Theorem groupby_repeated_name_fails
    (aggs : pystr -> option (list cell -> pyres cell))
    (df : frame) (by' : list pystr) (value agg : pystr) (g : frame) :
  ~ NoDup (by' ++ [value]) -> groupby_agg aggs df by' value agg <> POk g.
Proof.
  intros Hdup H. apply Hdup. unfold groupby_agg in H.
  destruct by' as [|b0 bs]; [discriminate|].
  apply pyres_bind_ok in H as [bidx [_ H]].
  apply pyres_bind_ok in H as [vidx [_ H]].
  apply pyres_bind_ok in H as [f [_ H]].
  apply pyres_bind_ok in H as [u [_ H]].
  apply pyres_bind_ok in H as [vals [_ H]].
  destruct (reset_conflict [value] (rev (b0 :: bs))) eqn:Hr; [discriminate|].
  apply reset_conflict_none in Hr as [Hnd Hf].
  apply NoDup_app. split; [|split].
  - rewrite <- Permutation_rev in Hnd. exact Hnd.
  - intros x Hx Hv. rewrite Forall_forall in Hf.
    apply (Hf x); [|exact Hv].
    apply list_elem_of_In, in_rev. rewrite rev_involutive. apply list_elem_of_In, Hx.
  - constructor; [apply not_elem_of_nil | constructor].
Qed.

Lemma groupby_repeated_name_fails_witness :
  groupby_agg pandas_aggs sales [lit "k"] (lit "k") (lit "count") <> POk sales.
Proof.
  apply groupby_repeated_name_fails. intros Hnd. inversion Hnd as [|x l Hx _].
  apply Hx. left.
Defined.

Lemma group_values_rows (df : frame) (by' : list pystr) (bidx : list nat) (vidx : nat)
    (value : pystr) (k : list cell) :
  mapM (key_column df) by' = POk bidx ->
  index_of (CStr value) (fr_cols df) = Some vidx ->
  Forall (fun c => c <> CNaN) k ->
  group_values (keyed_rows df bidx vidx) k =
    map (cell_at df value)
      (List.filter (fun r => bool_decide (row_key df by' r = k)) (fr_rows df)).
Proof.
  intros Hb Hv Hk. apply existsb_na_false in Hk.
  unfold group_values, keyed_rows, cell_at. rewrite Hv.
  induction (fr_rows df) as [|r rs IH]; [reflexivity|].
  cbn [map List.filter fst snd].
  rewrite (key_columns_row_key df by' bidx Hb r).
  destruct (bool_decide (row_key df by' r = k)) eqn:Hrk.
  - apply bool_decide_eq_true in Hrk. rewrite Hrk, Hk. cbn [negb List.filter fst].
    rewrite bool_decide_eq_true_2 by reflexivity. cbn [map snd]. f_equal. exact IH.
  - apply bool_decide_eq_false in Hrk.
    destruct (negb (existsb is_na (row_key df by' r))); cbn [List.filter fst];
      [rewrite bool_decide_eq_false_2 by exact Hrk|]; exact IH.
Qed.

(** Each row of the table is a key tuple followed by the reduction of
    exactly the value cells of the sheet's rows that have that key. *)
Theorem groupby_row_values
    (aggs : pystr -> option (list cell -> pyres cell)) (f : list cell -> pyres cell)
    (df : frame) (by' : list pystr) (value agg : pystr) (g : frame) :
  aggs agg = Some f ->
  groupby_agg aggs df by' value agg = POk g ->
  Forall (fun row => exists k v, row = k ++ [v] /\
            f (map (cell_at df value)
                 (List.filter (fun r => bool_decide (row_key df by' r = k)) (fr_rows df)))
            = POk v)
    (fr_rows g).
Proof.
  intros Hagg H. unfold groupby_agg in H.
  destruct by' as [|b0 bs]; [discriminate|].
  apply pyres_bind_ok in H as [bidx [Hb H]].
  apply pyres_bind_ok in H as [vidx [Hv H]].
  apply pyres_bind_ok in H as [f' [Hf H]].
  apply pyres_bind_ok in H as [u [_ H]].
  apply pyres_bind_ok in H as [vals [Hvals H]].
  rewrite Hagg in Hf. injection Hf as <-.
  destruct (index_of (CStr value) (fr_cols df)) eqn:Hi; [|discriminate].
  injection Hv as <-.
  destruct (reset_conflict [value] (rev (b0 :: bs))); [discriminate|].
  injection H as <-. cbn [fr_rows].
  apply mapM_pyres_Forall2 in Hvals.
  destruct (group_keys_spec (keyed_rows df bidx n)) as [_ Hmem].
  assert (Hk : Forall (fun k => Forall (fun c => c <> CNaN) k)
                 (group_keys (keyed_rows df bidx n))).
  { apply Forall_forall. intros k Hk. apply Hmem, keyed_rows_keys in Hk.
    apply Hk. }
  clear Hmem. induction Hvals as [|k v ks vs Hkv _ IH]; [constructor|].
  inversion Hk as [|? ? Hk0 Hks]; subst.
  cbn [zip_with]. constructor; [|apply IH, Hks].
  exists k, v. split; [reflexivity|].
  rewrite <- (group_values_rows df (b0 :: bs) bidx n value k Hb Hi Hk0). exact Hkv.
Qed.

Lemma groupby_row_values_witness :
  Forall (fun row => exists k v, row = k ++ [v] /\
            agg_sum (map (cell_at sales (lit "v"))
                 (List.filter (fun r => bool_decide (row_key sales [lit "k"] r = k))
                    (fr_rows sales)))
            = POk v)
    [[CStr (lit "a"); CInt (-3)]; [CStr (lit "x"); CInt 7]].
Proof.
  apply (groupby_row_values pandas_aggs agg_sum sales [lit "k"] (lit "v") (lit "sum")
           (mkframe [CStr (lit "k"); CStr (lit "v")]
                    [[CStr (lit "a"); CInt (-3)]; [CStr (lit "x"); CInt 7]]));
    vm_compute; reflexivity.
Defined.

Lemma str_leb_total (a b : pystr) : str_leb a b = true \/ str_leb b a = true.
Proof.
  revert b. induction a as [|x a IH]; intros [|y b]; simpl; auto.
  destruct (Z.eqb_spec x y) as [->|Hxy].
  - rewrite Z.eqb_refl. apply IH.
  - destruct (Z.eqb_spec y x); [congruence|].
    destruct (Z.ltb_spec x y); [auto|]. right. apply Z.ltb_lt. lia.
Qed.

Lemma cell_leb_total (a b : cell) : cell_leb a b = true \/ cell_leb b a = true.
Proof.
  destruct a as [x|s|d|], b as [y|t|d'|]; simpl; auto; try apply str_leb_total.
  destruct (Z.leb_spec x y); [auto|]. right. apply Z.leb_le. lia.
Qed.

Lemma key_le_total : Total key_le.
Proof.
  intros a. unfold key_le. induction a as [|x a IH]; intros [|y b]; simpl; auto.
  destruct (decide (x = y)) as [->|Hxy].
  - rewrite decide_True by reflexivity. apply IH.
  - rewrite decide_False by congruence. apply cell_leb_total.
Qed.

(** The key tuples of the table come in the order pandas sorts groups
    in ([sort=True]). *)
Theorem groupby_keys_sorted
    (aggs : pystr -> option (list cell -> pyres cell))
    (df : frame) (by' : list pystr) (value agg : pystr) (g : frame) :
  groupby_agg aggs df by' value agg = POk g ->
  Sorted key_le (map (firstn (length by')) (fr_rows g)).
Proof.
  intros H. unfold groupby_agg in H.
  destruct by' as [|b0 bs]; [discriminate|].
  apply pyres_bind_ok in H as [bidx [Hb H]].
  apply pyres_bind_ok in H as [vidx [_ H]].
  apply pyres_bind_ok in H as [f [_ H]].
  apply pyres_bind_ok in H as [u [_ H]].
  apply pyres_bind_ok in H as [vals [Hvals H]].
  destruct (reset_conflict [value] (rev (b0 :: bs))); [discriminate|].
  injection H as <-. cbn [fr_rows].
  pose proof (Forall2_length _ _ _ (mapM_pyres_Forall2 _ _ _ Hb)) as Hbl.
  pose proof (Forall2_length _ _ _ (mapM_pyres_Forall2 _ _ _ Hvals)) as Hvl.
  destruct (group_keys_spec (keyed_rows df bidx vidx)) as [_ Hmem].
  assert (Forall (fun k => length k = length (b0 :: bs)) (group_keys (keyed_rows df bidx vidx)))
    as Hkl.
  { apply Forall_forall. intros k Hk. apply Hmem, keyed_rows_keys in Hk as [[r [_ ->]] _].
    rewrite length_map. symmetry. exact Hbl. }
  destruct (keys_of_rows (length (b0 :: bs)) _ vals (eq_sym Hvl) Hkl) as [Hkeys _].
  rewrite Hkeys. unfold group_keys. apply (@Sorted_merge_sort _ key_le _ key_le_total).
Qed.

Lemma groupby_keys_sorted_witness :
  Sorted key_le (map (firstn 1)
    [[CStr (lit "a"); CInt (-3)]; [CStr (lit "x"); CInt 7]]).
Proof.
  apply (groupby_keys_sorted pandas_aggs sales [lit "k"] (lit "v") (lit "sum")
           (mkframe [CStr (lit "k"); CStr (lit "v")]
                    [[CStr (lit "a"); CInt (-3)]; [CStr (lit "x"); CInt 7]])).
  reflexivity.
Defined.





(** *** [to_csv_from_excel] *)

Lemma count_lf_app (a b : pystr) : count_lf (a ++ b) = (count_lf a + count_lf b)%nat.
Proof. unfold count_lf. rewrite List.filter_app, length_app. reflexivity. Qed.

Lemma count_lf_none (s : pystr) : ~ In LF s -> count_lf s = O.
Proof.
  intros Hn. unfold count_lf. apply length_zero_iff_nil.
  destruct (List.filter (fun c => c =? LF) s) as [|x l] eqn:E; [reflexivity|].
  exfalso. assert (Hx : In x (List.filter (fun c => c =? LF) s)) by (rewrite E; left; reflexivity).
  apply filter_In in Hx as [Hx Hq]. apply Z.eqb_eq in Hq. subst. contradiction.
Qed.

Lemma csv_field_no_lf (c : cell) : ~ In LF (cell_str c) -> ~ In LF (csv_field c).
Proof.
  intros Hc. unfold csv_field.
  assert (Hs : ~ In LF (match c with CNaN => [] | _ => cell_str c end))
    by (destruct c; simpl; auto).
  destruct (existsb _ _); [|exact Hs].
  intros H. apply in_app_or in H as [H|H]; [destruct H as [H|[]]; discriminate|].
  apply in_app_or in H as [H|H]; [|destruct H as [H|[]]; discriminate].
  apply in_flat_map in H as [ch [Hch Hin]].
  destruct (ch =? 34); simpl in Hin.
  - destruct Hin as [H|[H|[]]]; discriminate.
  - destruct Hin as [Heq|[]]. subst ch. contradiction.
Qed.

Lemma to_csv_cell_no_lf (col : list cell) (c : cell) :
  LF ∉ cell_str c -> LF ∉ cell_str (to_csv_cell col c).
Proof.
  intros Hc. rewrite list_elem_of_In in *. destruct c as [z|s|iso|]; cbn [to_csv_cell]; auto.
  - destruct (bool_decide _); [|exact Hc]. cbn [cell_str].
    intros H. apply in_app_or in H as [H|H]; [contradiction|].
    simpl in H. intuition discriminate.
  - destruct (_ && _); [|exact Hc]. cbn [cell_str].
    intros H. apply Hc. rewrite <- (firstn_skipn 10 iso). apply in_or_app. left. exact H.
Qed.

Lemma join_no_lf (sep : pystr) (l : list pystr) :
  ~ In LF sep -> Forall (fun x => ~ In LF x) l -> ~ In LF (join sep l).
Proof.
  intros Hsep. induction 1 as [|x t Hx Ht IH]; [simpl; auto|].
  destruct t as [|y t']; [exact Hx|].
  change (join sep (x :: y :: t')) with (x ++ sep ++ join sep (y :: t')).
  intros H. apply in_app_or in H as [H|H]; [auto|].
  apply in_app_or in H as [H|H]; auto.
Qed.

(** With POSIX line endings and no line break inside any header or
    cell, the CSV text has exactly one line feed per row plus one for the
    header: one line per row of the sheet. *)
Theorem csv_line_count (df : frame) :
  Forall (fun r => Forall (fun c => LF ∉ cell_str c) r) (fr_cols df :: fr_rows df) ->
  count_lf (csv_text [LF] df) = S (length (fr_rows df)).
Proof.
  intros H. unfold csv_text.
  rewrite <- (length_map (csv_row df) (fr_rows df)).
  change (S (length (map (csv_row df) (fr_rows df))))
    with (length (fr_cols df :: map (csv_row df) (fr_rows df))).
  assert (H' : Forall (fun r => Forall (fun c => LF ∉ cell_str c) r)
                 (fr_cols df :: map (csv_row df) (fr_rows df))).
  { inversion H as [|? ? Hc Hr]; subst. constructor; [exact Hc|].
    apply Forall_map. eapply Forall_impl; [exact Hr|]. intros r Hr'.
    unfold csv_row. apply Forall_map. apply Forall_forall. intros i _.
    apply to_csv_cell_no_lf.
    destruct (nth_in_or_default i r CNaN) as [Hin|Hd].
    - rewrite Forall_forall in Hr'. apply Hr'. apply list_elem_of_In, Hin.
    - rewrite Hd, list_elem_of_In. simpl. intuition discriminate. }
  clear H. induction H' as [|r t Hr _ IH]; [reflexivity|].
  cbn [flat_map]. rewrite !count_lf_app, IH, count_lf_none.
  - reflexivity.
  - apply join_no_lf; [simpl; intros [H|[]]; discriminate|].
    apply Forall_map. eapply Forall_impl; [exact Hr|]. intros c Hc.
    apply csv_field_no_lf. rewrite <- list_elem_of_In. exact Hc.
Qed.

Lemma csv_line_count_witness : count_lf (csv_text [LF] sales) = 5%nat.
Proof.
  apply (csv_line_count sales).
  repeat constructor; rewrite list_elem_of_In; vm_compute; intuition discriminate.
Defined.
